(** * MindCore: the Discord counselling relay ([discordbot.py])

    A shallow embedding of the message dispatcher, the channel registry and
    the session store of the bot, and the properties its specification
    states about them.

    Python values are modelled as follows.
    - [str] is a list of Unicode code points ([list N]); literals are written
      as UTF-8 and decoded by [u].
    - [int] is [Z]; [f"{n}"] is the decimal rendering [str_of_int].
    - the module-level set [allowed_channel_ids] is a [gset Z], the dict
      [CounselingAgent._sessions] a [gmap] from session ids to object
      references; [ChatSession] objects live in a store indexed by reference,
      so that identity and freshness of a handle can be stated.
    - an exception is a value of [exn]; a function that may raise returns
      [exn + A].
    - [str.lower] needs the Unicode case tables, which are not part of the
      program: it is a parameter of the development. *)

From Stdlib Require Import ZArith NArith Ascii String.
From Stdlib Require Import DecimalString DecimalZ DecimalPos.
From stdpp Require Import base option list sets gmap.

Local Open Scope N_scope.

(** ** Python strings *)

Abbreviation char := N (only parsing).
Abbreviation str := (list N) (only parsing).

(** UTF-8 decoding of a well-formed literal: [pending] continuation bytes are
    still expected for the code point accumulated in [acc]. *)
Fixpoint utf8_decode (pending : nat) (acc : N) (bytes : list N) : str :=
  match bytes with
  | [] => []
  | b :: rest =>
      match pending with
      | O =>
          if b <? 128 then b :: utf8_decode 0 0 rest
          else if b <? 224 then utf8_decode 1 (b - 192) rest
          else if b <? 240 then utf8_decode 2 (b - 224) rest
          else utf8_decode 3 (b - 240) rest
      | S k =>
          let acc' := acc * 64 + (b - 128) in
          match k with
          | O => acc' :: utf8_decode 0 0 rest
          | S _ => utf8_decode k acc' rest
          end
      end
  end.

Definition str_of_bytes (s : string) : str :=
  map N_of_ascii (list_ascii_of_string s).

(** [u "..."] is the Python literal ["..."]. *)
Definition u (s : string) : str := utf8_decode 0 0 (str_of_bytes s).
Arguments u s%_string.

(** [str(n)] and [f"{n}"] for an [int]. *)
Definition str_of_int (n : Z) : str :=
  str_of_bytes (NilZero.string_of_int (Z.to_int n)).

(** The code points [str.isspace] accepts, which are the ones [str.strip()]
    removes. *)
Definition isspace (c : char) : bool :=
  ((9 <=? c) && (c <=? 13)) || ((28 <=? c) && (c <=? 32))
  || (c =? 133) || (c =? 160) || (c =? 5760)
  || ((8192 <=? c) && (c <=? 8202))
  || (c =? 8232) || (c =? 8233) || (c =? 8239) || (c =? 8287) || (c =? 12288).

Fixpoint lstrip (s : str) : str :=
  match s with
  | [] => []
  | c :: s' => if isspace c then lstrip s' else s
  end.

Definition rstrip (s : str) : str := reverse (lstrip (reverse s)).

(** [s.strip()] *)
Definition strip (s : str) : str := rstrip (lstrip s).

(** [s.startswith(p)] *)
Fixpoint startswith (p s : str) : bool :=
  match p, s with
  | [], _ => true
  | _ :: _, [] => false
  | a :: p', b :: s' => (a =? b) && startswith p' s'
  end.

(** [s.replace(old, "")] for a non-empty [old]: the occurrences of [old] are
    cut out from left to right, without overlap; [skip] counts the code
    points of the current occurrence still to be dropped. *)
Fixpoint remove_occurrences (old : str) (skip : nat) (s : str) : str :=
  match s with
  | [] => []
  | c :: s' =>
      match skip with
      | S k => remove_occurrences old k s'
      | O =>
          if startswith old s
          then remove_occurrences old (pred (length old)) s'
          else c :: remove_occurrences old 0 s'
      end
  end.

(** [s.replace(old, "")]; with an empty [old] Python inserts the empty
    replacement between the code points, which leaves [s] as it is. *)
Definition replace_with_empty (old s : str) : str :=
  match old with
  | [] => s
  | _ :: _ => remove_occurrences old 0 s
  end.

(** [c.lower()] on the ASCII range, where [str.lower] works code point by
    code point. *)
Definition ascii_lower_char (c : char) : char :=
  if (65 <=? c) && (c <=? 90) then c + 32 else c.

Definition ascii_lower (s : str) : str := map ascii_lower_char s.

(** ** Exceptions *)

Inductive exn : Type :=
  | ValueError (msg : str)
  | AttributeError (msg : str)
  | KeyError (key : str)
  | RemoteError (detail : str).

(** ** The platform's objects, as far as the program reads them *)

(** [discord.Permissions]: the one flag the program looks at. *)
Record Permissions : Type := { manage_channels : bool }.

(** A [discord.User] or [discord.Member]; only a member carries
    [guild_permissions], which [getattr(actor, "guild_permissions", None)]
    reads. Two users are [==] when their ids are. *)
Record User : Type := {
  user_id : Z;
  name : str;
  mention : str;
  bot : bool;
  guild_permissions : option Permissions
}.

Definition user_eq (a b : User) : bool := bool_decide (user_id a = user_id b).

(** A channel object as [_is_allowed_channel] and the slash commands take
    it: a [discord.DMChannel] or some other messageable; [channel_id] is
    [getattr(channel, "id", None)], which is all they read of the id. *)
Inductive Channel : Type :=
  | DMChannel (id : Z)
  | OtherChannel (id : option Z).

Definition is_dm (ch : Channel) : bool :=
  match ch with DMChannel _ => true | OtherChannel _ => false end.

Definition channel_id (ch : Channel) : option Z :=
  match ch with DMChannel i => Some i | OtherChannel oi => oi end.

Record Guild : Type := { guild_id : Z }.

(** A [discord.Message]. Its channel is a channel the platform delivers
    messages in: [direct] tells whether it is a [discord.DMChannel], and
    [message_channel_id] is [message.channel.id], the integer that
    [on_message] reads without a guard (lines 232-264). *)
Record Message : Type := {
  author : User;
  content : str;
  mentions : list User;
  direct : bool;
  message_channel_id : Z;
  guild : option Guild
}.

(** [message.channel] *)
Definition channel (m : Message) : Channel :=
  if direct m then DMChannel (message_channel_id m)
  else OtherChannel (Some (message_channel_id m)).

Record Interaction : Type := {
  interaction_channel : option Channel;
  interaction_user : User
}.

(** What a handler does to the outside: [await channel.send(text)],
    [await message.reply(text, mention_author=False)], and entering
    [channel.typing()]. *)
Inductive Action : Type :=
  | Send (ch : Channel) (text : str)
  | Reply (to : Message) (text : str)
  | Typing (ch : Channel)
  | Ephemeral (text : str).

(** The texts of an action list, in order. *)
Definition texts (out : list Action) : list str :=
  omap (fun a => match a with
                 | Send _ t | Reply _ t | Ephemeral t => Some t
                 | Typing _ => None
                 end) out.

(** ** The user-facing messages *)

Definition JOIN_TOKENS : list str := [u "!join"; u "/join"].
Definition LEAVE_TOKENS : list str := [u "!leave"; u "/leave"].
Definition RESET_TOKENS : list str := [u "!reset"; u "reset"; u "リセット"].

Definition MSG_TEXT_DM_ONLY : str :=
  u "このコマンドはサーバー内のテキストチャンネルで使ってください。".
Definition MSG_TEXT_JOIN_DENIED : str :=
  u "権限を確認できなかったため、このチャンネルを登録できませんでした。".
Definition MSG_TEXT_JOIN_ALREADY : str :=
  u "すでにこのチャンネルでお話しできます。".
Definition MSG_JOIN_OK : str :=
  u "このチャンネルでやり取りするように設定しました。よろしくお願いします。".
Definition MSG_TEXT_LEAVE_DENIED : str :=
  u "権限を確認できなかったため、このチャンネルの登録を解除できませんでした。".
Definition MSG_LEAVE_ABSENT : str :=
  u "このチャンネルはもともと登録されていませんでした。".
Definition MSG_LEAVE_OK : str :=
  u "このチャンネルでの応答を停止しました。必要になったらまた /join してくださいね。".

Definition MSG_SLASH_GUILD_ONLY : str :=
  u "このコマンドはサーバー内のテキストチャンネルで実行してください。".
Definition MSG_SLASH_JOIN_DENIED : str :=
  u "チャンネルを登録する権限がありません。サーバー管理者に相談してください。".
Definition MSG_SLASH_JOIN_NO_ID : str :=
  u "このチャンネルを登録できませんでした。別のチャンネルでお試しください。".
Definition MSG_SLASH_JOIN_ALREADY : str :=
  u "すでにこのチャンネルでお話しできるようになっています。".
Definition MSG_SLASH_LEAVE_DENIED : str :=
  u "チャンネルの登録解除権限がありません。サーバー管理者に相談してください。".
Definition MSG_SLASH_LEAVE_NO_ID : str :=
  u "このチャンネルの登録を解除できませんでした。別のチャンネルでお試しください。".

Definition MSG_ASK : str :=
  u "何についてお話ししますか？遠慮なく教えてくださいね。".
Definition MSG_RESET_DONE : str :=
  u "会話履歴をリセットしました。いつでもお話しくださいね。".
(** The one reply for a failed generation. *)
Definition MSG_APOLOGY : str :=
  u ("ごめんなさい、今はお手伝いができないみたいです。少し時間を置いてから"
     ++ "もう一度試してもらえると嬉しいです。").

Definition EMPTY_RESPONSE : str := u "Empty response from Gemini".
Definition NONE_HAS_NO_ID : str := u "'NoneType' object has no attribute 'id'".

(** ** The remote model and the session store ([CounselingAgent]) *)

(** A [genai.ChatSession]: the dialogue so far, one (prompt, response) pair
    per completed turn. *)
Record ChatSession : Type := { history : list (str * str) }.

(** What [chat.send_message(prompt, ...)] and the read of [response.text]
    come back with: a text, which may be [None], or an exception. *)
Inductive Completion : Type :=
  | Responded (text : option str)
  | Failed (detail : str).

(** [_sessions] maps a session id to a reference into [chats], the store of
    every [ChatSession] object created so far. *)
Record CounselingAgent : Type := {
  _sessions : gmap str nat;
  chats : list ChatSession
}.

(** [self.model.start_chat(history=[])]: a new object, hence a new reference. *)
Definition start_chat (ag : CounselingAgent) : CounselingAgent * nat :=
  ({| _sessions := _sessions ag; chats := chats ag ++ [ {| history := [] |} ] |},
   length (chats ag)).

Definition _get_session (ag : CounselingAgent) (session_id : str)
  : CounselingAgent * nat :=
  match _sessions ag !! session_id with
  | Some chat => (ag, chat)
  | None =>
      let '(ag1, chat) := start_chat ag in
      ({| _sessions := <[session_id := chat]> (_sessions ag1);
          chats := chats ag1 |}, chat)
  end.

(** [del d[k]]: raises [KeyError] when the key is absent. *)
Definition dict_del (d : gmap str nat) (k : str) : exn + gmap str nat :=
  match d !! k with
  | Some _ => inr (delete k d)
  | None => inl (KeyError k)
  end.

Definition reset (ag : CounselingAgent) (session_id : str)
  : exn + CounselingAgent :=
  if bool_decide (session_id ∈ dom (_sessions ag))
  then match dict_del (_sessions ag) session_id with
       | inl e => inl e
       | inr d => inr {| _sessions := d; chats := chats ag |}
       end
  else inr ag.

(** The closure [_invoke], given what the library call comes back with. *)
Definition _invoke (c : Completion) : exn + str :=
  match c with
  | Failed detail => inl (RemoteError detail)
  | Responded response_text =>
      let text := strip (default [] response_text) in
      match text with
      | [] => inl (ValueError EMPTY_RESPONSE)
      | _ :: _ => inr text
      end
  end.

(** The library's own effect of a call on the chat object: a turn that came
    back is appended to its history. *)
Definition send_message (ag : CounselingAgent) (chat : nat) (prompt : str)
  (c : Completion) : CounselingAgent :=
  match c with
  | Failed _ => ag
  | Responded response_text =>
      let turn := (prompt, default [] response_text) in
      {| _sessions := _sessions ag;
         chats := alter (fun s => {| history := history s ++ [turn] |})
                        chat (chats ag) |}
  end.

(** [generate], when nothing else runs between the call and its result:
    the session is looked up (line 57), the call is made in a worker thread
    and awaited, an exception is logged and raised again. *)
Definition generate (ag : CounselingAgent) (session_id prompt : str)
  (c : Completion) : CounselingAgent * (exn + str) :=
  let '(ag1, chat) := _get_session ag session_id in
  (send_message ag1 chat prompt c, _invoke c).

(** ** The module-level state and the channel registry *)

Record Bot : Type := {
  allowed_channel_ids : gset Z;
  assistant : CounselingAgent;
  client_user : option User
}.

Definition with_allowed (b : Bot) (ids : gset Z) : Bot :=
  {| allowed_channel_ids := ids; assistant := assistant b;
     client_user := client_user b |}.

Definition with_assistant (b : Bot) (ag : CounselingAgent) : Bot :=
  {| allowed_channel_ids := allowed_channel_ids b; assistant := ag;
     client_user := client_user b |}.

Definition _has_manage_channels (actor : User) : bool :=
  match guild_permissions actor with
  | None => false
  | Some permissions => manage_channels permissions
  end.

Definition _is_allowed_channel (allowed : gset Z) (ch : Channel) : bool :=
  if is_dm ch then true
  else match channel_id ch with
       | None => false
       | Some i => bool_decide (i ∈ allowed)
       end.

Definition _should_respond (allowed : gset Z) (m : Message) : bool :=
  if is_dm (channel m) then true
  else if negb (_is_allowed_channel allowed (channel m)) then false
  else true.

(** One turn of the loop of [_clean_prompt]. *)
Definition strip_mention (me : User) (prompt : str) (who : User) : str :=
  if user_eq who me
  then let prompt1 := strip (replace_with_empty (mention who) prompt) in
       strip (replace_with_empty (u "@" ++ name me) prompt1)
  else prompt.

Definition _clean_prompt (me : option User) (m : Message) : str :=
  let prompt := strip (content m) in
  match me with
  | None => prompt
  | Some client_user => fold_left (strip_mention client_user) (mentions m) prompt
  end.

(** *** The slash commands [/join] and [/leave] *)

Definition register_channel (b : Bot) (i : Interaction) : Bot * list Action :=
  match interaction_channel i with
  | None => (b, [Ephemeral MSG_SLASH_GUILD_ONLY])
  | Some ch =>
      if is_dm ch then (b, [Ephemeral MSG_SLASH_GUILD_ONLY])
      else if negb (_has_manage_channels (interaction_user i))
      then (b, [Ephemeral MSG_SLASH_JOIN_DENIED])
      else match channel_id ch with
           | None => (b, [Ephemeral MSG_SLASH_JOIN_NO_ID])
           | Some cid =>
               if bool_decide (cid ∈ allowed_channel_ids b)
               then (b, [Ephemeral MSG_SLASH_JOIN_ALREADY])
               else (with_allowed b ({[cid]} ∪ allowed_channel_ids b),
                     [Ephemeral MSG_JOIN_OK])
           end
  end.

Definition unregister_channel (b : Bot) (i : Interaction) : Bot * list Action :=
  match interaction_channel i with
  | None => (b, [Ephemeral MSG_SLASH_GUILD_ONLY])
  | Some ch =>
      if is_dm ch then (b, [Ephemeral MSG_SLASH_GUILD_ONLY])
      else if negb (_has_manage_channels (interaction_user i))
      then (b, [Ephemeral MSG_SLASH_LEAVE_DENIED])
      else match channel_id ch with
           | None => (b, [Ephemeral MSG_SLASH_LEAVE_NO_ID])
           | Some cid =>
               if negb (bool_decide (cid ∈ allowed_channel_ids b))
               then (b, [Ephemeral MSG_LEAVE_ABSENT])
               else (with_allowed b (allowed_channel_ids b ∖ {[cid]}),
                     [Ephemeral MSG_LEAVE_OK])
           end
  end.

(** *** [on_message] *)

(** How a run of [on_message] stands when it first stops: it has returned,
    it has raised, or it is suspended in [await asyncio.to_thread(_invoke)]
    with the chat object [chat] captured by the closure. *)
Inductive Outcome : Type :=
  | Returned (b : Bot) (out : list Action)
  | Raised (e : exn) (b : Bot) (out : list Action)
  | Awaiting (b : Bot) (out : list Action) (session_id : str) (chat : nat)
      (prompt : str).

(** Lines 226-237: the body of [if command in {"!join", "/join"}]. *)
Definition text_join (b : Bot) (m : Message) : Outcome :=
  if is_dm (channel m) then Returned b [Send (channel m) MSG_TEXT_DM_ONLY]
  else if bool_decide (guild m = None) || negb (_has_manage_channels (author m))
  then Returned b [Send (channel m) MSG_TEXT_JOIN_DENIED]
  else if bool_decide (message_channel_id m ∈ allowed_channel_ids b)
  then Returned b [Send (channel m) MSG_TEXT_JOIN_ALREADY]
  else Returned
         (with_allowed b ({[message_channel_id m]} ∪ allowed_channel_ids b))
         [Send (channel m) MSG_JOIN_OK].

(** Lines 240-251: the body of [if command in {"!leave", "/leave"}]. *)
Definition text_leave (b : Bot) (m : Message) : Outcome :=
  if is_dm (channel m) then Returned b [Send (channel m) MSG_TEXT_DM_ONLY]
  else if bool_decide (guild m = None) || negb (_has_manage_channels (author m))
  then Returned b [Send (channel m) MSG_TEXT_LEAVE_DENIED]
  else if negb (bool_decide (message_channel_id m ∈ allowed_channel_ids b))
  then Returned b [Send (channel m) MSG_LEAVE_ABSENT]
  else Returned
         (with_allowed b (allowed_channel_ids b ∖ {[message_channel_id m]}))
         [Send (channel m) MSG_LEAVE_OK].

(** Lines 261-265: the session id of a message. The attribute read
    [message.guild.id] raises when there is no guild. *)
Definition session_id_of (m : Message) : exn + str :=
  if is_dm (channel m)
  then inr (u "dm:" ++ str_of_int (user_id (author m)))
  else match guild m with
       | None => inl (AttributeError NONE_HAS_NO_ID)
       | Some g =>
           inr (u "guild:" ++ str_of_int (guild_id g)
                ++ u ":channel:" ++ str_of_int (message_channel_id m)
                ++ u ":user:" ++ str_of_int (user_id (author m)))
       end.

(** Lines 282-285, and the handler of line 275: what [on_message] does once
    the awaited call has come back, in the state [b] of that moment. *)
Definition on_message_resume (b : Bot) (m : Message) (chat : nat)
  (prompt : str) (c : Completion) : Bot * list Action :=
  let b1 := with_assistant b (send_message (assistant b) chat prompt c) in
  match _invoke c with
  | inl _ => (b1, [Send (channel m) MSG_APOLOGY])
  | inr reply =>
      if is_dm (channel m) then (b1, [Send (channel m) reply])
      else (b1, [Reply m reply])
  end.

Section Dispatcher.

(** [str.lower]. *)
Variable lower : str -> str.

Definition on_message (b : Bot) (m : Message) : Outcome :=
  if bot (author m) then Returned b []
  else
    let raw_prompt := _clean_prompt (client_user b) m in
    let command := lower raw_prompt in
    if bool_decide (command ∈ JOIN_TOKENS) then text_join b m
    else if bool_decide (command ∈ LEAVE_TOKENS) then text_leave b m
    else if negb (_should_respond (allowed_channel_ids b) m) then Returned b []
    else
      let prompt := raw_prompt in
      match prompt with
      | [] => Returned b [Send (channel m) MSG_ASK]
      | _ :: _ =>
          match session_id_of m with
          | inl e => Raised e b []
          | inr session_id =>
              if bool_decide (lower prompt ∈ RESET_TOKENS)
              then match reset (assistant b) session_id with
                   | inl e => Raised e b []
                   | inr ag => Returned (with_assistant b ag)
                                 [Send (channel m) MSG_RESET_DONE]
                   end
              else
                let '(ag, chat) := _get_session (assistant b) session_id in
                Awaiting (with_assistant b ag) [Typing (channel m)]
                         session_id chat prompt
          end
      end.

(** [on_message] from the event to its end, when nothing else runs while
    the call is awaited; [c] is what the remote call comes back with if it
    is made. *)
Definition on_message_run (b : Bot) (m : Message) (c : Completion)
  : Outcome :=
  match on_message b m with
  | Awaiting b1 out _ chat prompt =>
      let '(b2, out2) := on_message_resume b1 m chat prompt c in
      Returned b2 (out ++ out2)
  | o => o
  end.

(** *** The classifier and the dispatcher of the specification

    Sections 4.2 and 4.5 of the specification, in their own order: the
    class of a normalized body is decided on its lower-cased form, and a
    generation request carries the body as it was before lower-casing. *)

Inductive Classification : Type :=
  | RegisterCommand
  | DeregisterCommand
  | ResetCommand
  | EmptyInput
  | GenerationRequest (prompt : str).

Definition classify_spec (body : str) : Classification :=
  let folded := lower body in
  if bool_decide (folded ∈ JOIN_TOKENS) then RegisterCommand
  else if bool_decide (folded ∈ LEAVE_TOKENS) then DeregisterCommand
  else if bool_decide (folded ∈ RESET_TOKENS) then ResetCommand
  else if bool_decide (folded = []) then EmptyInput
  else GenerationRequest body.

(** The tests [on_message] makes on the body, in the order it makes them
    (lines 225, 239, 257 and 267): the empty body is tested before the reset
    tokens. *)
Definition classify (body : str) : Classification :=
  let command := lower body in
  if bool_decide (command ∈ JOIN_TOKENS) then RegisterCommand
  else if bool_decide (command ∈ LEAVE_TOKENS) then DeregisterCommand
  else match body with
       | [] => EmptyInput
       | _ :: _ =>
           if bool_decide (lower body ∈ RESET_TOKENS) then ResetCommand
           else GenerationRequest body
       end.

(** Step 4 of section 4.5: an unregistered channel ends the dispatch. *)
Definition gated (b : Bot) (m : Message) (o : Outcome) : Outcome :=
  if negb (_should_respond (allowed_channel_ids b) m) then Returned b [] else o.

(** Step 6 of section 4.5. *)
Definition with_session_id (b : Bot) (m : Message) (k : str -> Outcome)
  : Outcome :=
  match session_id_of m with
  | inl e => Raised e b []
  | inr session_id => k session_id
  end.

Definition dispatch_spec (b : Bot) (m : Message) (c : Classification)
  : Outcome :=
  match c with
  | RegisterCommand => text_join b m
  | DeregisterCommand => text_leave b m
  | EmptyInput => gated b m (Returned b [Send (channel m) MSG_ASK])
  | ResetCommand =>
      gated b m (with_session_id b m (fun session_id =>
        match reset (assistant b) session_id with
        | inl e => Raised e b []
        | inr ag => Returned (with_assistant b ag)
                      [Send (channel m) MSG_RESET_DONE]
        end))
  | GenerationRequest prompt =>
      gated b m (with_session_id b m (fun session_id =>
        let '(ag, chat) := _get_session (assistant b) session_id in
        Awaiting (with_assistant b ag) [Typing (channel m)]
                 session_id chat prompt))
  end.

(** *** The event loop

    Every gateway event runs its handler as a task of its own, up to the
    next suspension. A call handed to [asyncio.to_thread] is in flight from
    then until the loop takes up its result: the worker pool runs it as soon
    as a worker is free, and the loop takes other events meanwhile. The
    awaits of [send], [reply] and [typing] are not kept apart from the code
    around them: no handler reads or writes the module state after a [send]
    or a [reply], and between [typing] and the session lookup it reads
    nothing it has read before. *)

Record Call : Type := {
  call_message : Message;
  call_session : str;
  call_chat : nat;
  call_prompt : str
}.

Record World : Type := {
  world_bot : Bot;
  in_flight : list Call;
  outbox : list Action
}.

Inductive Event : Type :=
  | MessageCreate (m : Message)
  | SlashJoin (i : Interaction)
  | SlashLeave (i : Interaction)
  | ThreadDone (n : nat) (c : Completion).

Definition step (w : World) (e : Event) : World :=
  match e with
  | MessageCreate m =>
      match on_message (world_bot w) m with
      | Returned b out | Raised _ b out =>
          {| world_bot := b; in_flight := in_flight w;
             outbox := outbox w ++ out |}
      | Awaiting b out session_id chat prompt =>
          {| world_bot := b;
             in_flight := in_flight w ++
               [ {| call_message := m; call_session := session_id;
                    call_chat := chat; call_prompt := prompt |} ];
             outbox := outbox w ++ out |}
      end
  | SlashJoin i =>
      let '(b, out) := register_channel (world_bot w) i in
      {| world_bot := b; in_flight := in_flight w; outbox := outbox w ++ out |}
  | SlashLeave i =>
      let '(b, out) := unregister_channel (world_bot w) i in
      {| world_bot := b; in_flight := in_flight w; outbox := outbox w ++ out |}
  | ThreadDone n c =>
      match in_flight w !! n with
      | None => w
      | Some call =>
          let '(b, out) :=
            on_message_resume (world_bot w) (call_message call)
              (call_chat call) (call_prompt call) c in
          {| world_bot := b; in_flight := delete n (in_flight w);
             outbox := outbox w ++ out |}
      end
  end.

Definition run (w : World) (events : list Event) : World :=
  fold_left step events w.

(** The calls in flight on one session id. *)
Definition calls_on (w : World) (session_id : str) : list Call :=
  filter (fun call => call_session call = session_id) (in_flight w).

End Dispatcher.

(** The state the module starts in (lines 81-85), for the configured
    channel ids. *)
Definition initial_bot (configured : gset Z) (me : option User) : Bot :=
  {| allowed_channel_ids := configured;
     assistant := {| _sessions := ∅; chats := [] |};
     client_user := me |}.

Definition initial_world (configured : gset Z) (me : option User) : World :=
  {| world_bot := initial_bot configured me; in_flight := []; outbox := [] |}.

(** The bot an outcome leaves behind. *)
Definition bot_of (o : Outcome) : Bot :=
  match o with
  | Returned b _ | Raised _ b _ | Awaiting b _ _ _ _ => b
  end.

Definition actions_of (o : Outcome) : list Action :=
  match o with
  | Returned _ out | Raised _ _ out | Awaiting _ out _ _ _ => out
  end.

(** *** The two registration commands and the ways they are refused *)

Inductive Command : Type := CmdJoin | CmdLeave.

Definition text_command (c : Command) : Bot -> Message -> Outcome :=
  match c with CmdJoin => text_join | CmdLeave => text_leave end.

Definition slash_command (c : Command) : Bot -> Interaction -> Bot * list Action :=
  match c with CmdJoin => register_channel | CmdLeave => unregister_channel end.

(** A command that changes nothing: issued in a direct conversation, by an
    actor without the privilege, or on a channel that is already in the state
    asked for. *)
Inductive Refusal : Type := InvalidContext | PermissionDenied | NothingToDo.

(** The message each handler sends for each refusal. *)
Definition text_refusal_message (c : Command) (r : Refusal) : str :=
  match r, c with
  | InvalidContext, _ => MSG_TEXT_DM_ONLY
  | PermissionDenied, CmdJoin => MSG_TEXT_JOIN_DENIED
  | PermissionDenied, CmdLeave => MSG_TEXT_LEAVE_DENIED
  | NothingToDo, CmdJoin => MSG_TEXT_JOIN_ALREADY
  | NothingToDo, CmdLeave => MSG_LEAVE_ABSENT
  end.

Definition slash_refusal_message (c : Command) (r : Refusal) : str :=
  match r, c with
  | InvalidContext, _ => MSG_SLASH_GUILD_ONLY
  | PermissionDenied, CmdJoin => MSG_SLASH_JOIN_DENIED
  | PermissionDenied, CmdLeave => MSG_SLASH_LEAVE_DENIED
  | NothingToDo, CmdJoin => MSG_SLASH_JOIN_ALREADY
  | NothingToDo, CmdLeave => MSG_LEAVE_ABSENT
  end.

(** The tokens of a command (lines 225 and 239). *)
Definition command_tokens (c : Command) : list str :=
  match c with CmdJoin => JOIN_TOKENS | CmdLeave => LEAVE_TOKENS end.

(** The channel is in the state the command asks for. *)
Definition already_done (c : Command) (allowed : gset Z) (cid : Z) : bool :=
  match c with
  | CmdJoin => bool_decide (cid ∈ allowed)
  | CmdLeave => negb (bool_decide (cid ∈ allowed))
  end.

(** Single flight, as the specification words it: no session id has two
    calls in flight. *)
Definition single_flight (w : World) : Prop :=
  ∀ session_id, (length (calls_on w session_id) <= 1)%nat.

(** Sample objects for the examples below. *)
Definition alice : User :=
  {| user_id := 7; name := u "alice"; mention := u "<@7>"; bot := false;
     guild_permissions := None |}.

Definition moderator : User :=
  {| user_id := 8; name := u "mod"; mention := u "<@8>"; bot := false;
     guild_permissions := Some {| manage_channels := true |} |}.

Definition mindcare : User :=
  {| user_id := 1; name := u "mindcare"; mention := u "<@1>"; bot := true;
     guild_permissions := None |}.

Definition direct_message (who : User) (body : str) : Message :=
  {| author := who; content := body; mentions := [];
     direct := true; message_channel_id := 70; guild := None |}.

Definition guild_message (who : User) (cid : Z) (body : str) : Message :=
  {| author := who; content := body; mentions := [];
     direct := false; message_channel_id := cid;
     guild := Some {| guild_id := 9 |} |}.

Definition hello : Message := direct_message alice (u "hello").
Definition again : Message := direct_message alice (u "are you there").

Definition bot0 : Bot := initial_bot ∅ (Some mindcare).

Definition world1 : World :=
  run ascii_lower (initial_world ∅ (Some mindcare)) [MessageCreate hello].

(** A message that asks for a generation: what [on_message] tests before it
    reaches line 272. It reads the author, the body, the registry and the
    channel, and nothing of the session store or of the calls in flight. *)
Definition generation_request (lower : str -> str) (b : Bot) (m : Message)
  (session_id : str) : Prop :=
  bot (author m) = false
  ∧ classify lower (_clean_prompt (client_user b) m)
    = GenerationRequest (_clean_prompt (client_user b) m)
  ∧ _should_respond (allowed_channel_ids b) m = true
  ∧ session_id_of m = inr session_id.

(** An event that may reset a session id: a message of that session id whose
    body is a reset token. *)
Definition resets_session (lower : str -> str) (me : option User)
  (session_id : str) (e : Event) : Prop :=
  match e with
  | MessageCreate m =>
      session_id_of m = inr session_id
      ∧ lower (_clean_prompt me m) ∈ RESET_TOKENS
  | _ => False
  end.

(** An event that ends a call. *)
Definition is_thread_done (e : Event) : Prop :=
  match e with ThreadDone _ _ => True | _ => False end.

(** A text within the ASCII range. *)
Definition ascii_str (s : str) : Prop := Forall (fun c => c < 128) s.

(** A code point of a decimal rendering: the sign or a digit. *)
Definition decimal_char (c : char) : Prop := c = 45 ∨ 48 <= c <= 57.

(** The cases of a membership [H] in a literal token list, each with its
    equation [E]. *)
Ltac tokens H E :=
  repeat (apply elem_of_cons in H as [E|H]; [|]); [..|by apply elem_of_nil in H].

(** * Properties *)

(** ** Decimal renderings and literals *)

Lemma str_of_bytes_inj s1 s2 : str_of_bytes s1 = str_of_bytes s2 → s1 = s2.
Proof.
  unfold str_of_bytes. intros H.
  rewrite <- (string_of_list_ascii_of_string s1),
          <- (string_of_list_ascii_of_string s2).
  f_equal. revert H.
  generalize (list_ascii_of_string s1) (list_ascii_of_string s2).
  induction l as [|a l IH]; intros [|a' l'] H; try discriminate H; [done|].
  simpl in H. injection H as Ha Hl. f_equal; [|by apply IH].
  rewrite <- (ascii_N_embedding a), <- (ascii_N_embedding a'). congruence.
Qed.

Lemma to_int_not_nil z :
  Z.to_int z ≠ Decimal.Pos Decimal.Nil ∧ Z.to_int z ≠ Decimal.Neg Decimal.Nil.
Proof.
  destruct z as [|p|p]; split; simpl; try discriminate;
    intros [= E]; by apply Unsigned.to_uint_nonnil in E.
Qed.

Lemma str_of_int_inj z1 z2 : str_of_int z1 = str_of_int z2 → z1 = z2.
Proof.
  intros H%str_of_bytes_inj. apply to_int_inj.
  destruct (to_int_not_nil z1) as [A1 B1], (to_int_not_nil z2) as [A2 B2].
  pose proof (NilZero.isi _ A1 B1) as E1. pose proof (NilZero.isi _ A2 B2) as E2.
  rewrite H in E1. congruence.
Qed.

Lemma string_of_uint_digits d :
  Forall decimal_char (str_of_bytes (NilEmpty.string_of_uint d)).
Proof. induction d; simpl; constructor; try done; right; simpl; lia. Qed.

Lemma str_of_int_digits z : Forall decimal_char (str_of_int z).
Proof.
  assert (Hu : ∀ d, Forall decimal_char (str_of_bytes (NilZero.string_of_uint d))).
  { intros d. destruct d; try apply string_of_uint_digits.
    constructor; [right; simpl; lia | constructor]. }
  unfold str_of_int. destruct (Z.to_int z) as [d|d]; simpl.
  - apply Hu.
  - constructor; [by left | apply Hu].
Qed.

Lemma str_of_int_no_colon z : 58 ∉ str_of_int z.
Proof.
  intros H. pose proof (str_of_int_digits z) as Hd.
  rewrite Forall_forall in Hd. destruct (Hd _ H) as [?|?]; lia.
Qed.

(** Two texts cut at their first separator agree part by part. *)
Lemma split_at_first (sep : char) (a a' b b' : str) :
  sep ∉ a → sep ∉ a' → a ++ sep :: b = a' ++ sep :: b' → a = a' ∧ b = b'.
Proof.
  revert a'. induction a as [|x a IH]; intros [|x' a'] Ha Ha' H;
    simpl in H; injection H; intros; subst.
  - done.
  - exfalso. apply Ha'. left.
  - exfalso. apply Ha. left.
  - apply not_elem_of_cons in Ha as [_ Ha].
    apply not_elem_of_cons in Ha' as [_ Ha'].
    destruct (IH a' Ha Ha') as [E1 E2]; [done|]. by rewrite E1, E2.
Qed.

Lemma u_dm : u "dm:" = [100; 109; 58].
Proof. reflexivity. Qed.

Lemma u_guild : u "guild:" = [103; 117; 105; 108; 100; 58].
Proof. reflexivity. Qed.

Lemma u_channel : u ":channel:" = 58 :: [99; 104; 97; 110; 110; 101; 108; 58].
Proof. reflexivity. Qed.

Lemma u_user : u ":user:" = 58 :: [117; 115; 101; 114; 58].
Proof. reflexivity. Qed.

Lemma msg_neq (a b : str) : bool_decide (a = b) = false → a ≠ b.
Proof. apply bool_decide_eq_false. Qed.

Lemma not_in_tokens (x : str) (l : list str) :
  bool_decide (x ∈ l) = false → x ∉ l.
Proof. apply bool_decide_eq_false. Qed.

Lemma in_tokens (x : str) (l : list str) :
  bool_decide (x ∈ l) = true → x ∈ l.
Proof. apply bool_decide_eq_true. Qed.

Lemma ascii_str_compute s : forallb (fun c => c <? 128) s = true → ascii_str s.
Proof.
  unfold ascii_str. induction s as [|c s IH]; simpl; [constructor|].
  destruct (c <? 128) eqn:E; [|done]. intros H.
  constructor; [by apply N.ltb_lt | by apply IH].
Qed.

Lemma ascii_lower_ascii s : ascii_str (ascii_lower s) → ascii_str s.
Proof.
  unfold ascii_str, ascii_lower. rewrite Forall_fmap. intros H.
  eapply Forall_impl; [exact H|]. intros c. unfold ascii_lower_char; simpl.
  destruct (65 <=? c) eqn:E1, (c <=? 90) eqn:E2; simpl; lia.
Qed.

Lemma ascii_lower_nil s : ascii_lower s = [] ↔ s = [].
Proof. unfold ascii_lower. by destruct s. Qed.

(** ** Session ids *)

Lemma channel_id_channel m : channel_id (channel m) = Some (message_channel_id m).
Proof. unfold channel. by destruct (direct m). Qed.

Lemma is_dm_channel m : is_dm (channel m) = direct m.
Proof. unfold channel. by destruct (direct m). Qed.

Lemma dm_key_inj u1 u2 :
  u "dm:" ++ str_of_int u1 = u "dm:" ++ str_of_int u2 → u1 = u2.
Proof. intros H. by apply app_inv_head, str_of_int_inj in H. Qed.

Lemma guild_key_inj g1 c1 u1 g2 c2 u2 :
  u "guild:" ++ str_of_int g1 ++ u ":channel:" ++ str_of_int c1
    ++ u ":user:" ++ str_of_int u1
  = u "guild:" ++ str_of_int g2 ++ u ":channel:" ++ str_of_int c2
    ++ u ":user:" ++ str_of_int u2 →
  g1 = g2 ∧ c1 = c2 ∧ u1 = u2.
Proof.
  rewrite u_channel, u_user. intros H. apply app_inv_head in H.
  rewrite <- !app_comm_cons in H.
  apply split_at_first in H as [Hg H]; try apply str_of_int_no_colon.
  apply (app_inv_head [99; 104; 97; 110; 110; 101; 108; 58]) in H.
  apply split_at_first in H as [Hc H]; try apply str_of_int_no_colon.
  apply (app_inv_head [117; 115; 101; 114; 58]) in H.
  by repeat split; apply str_of_int_inj.
Qed.

Lemma dm_key_not_guild_key u1 rest :
  u "dm:" ++ str_of_int u1 ≠ u "guild:" ++ rest.
Proof. rewrite u_dm, u_guild. discriminate. Qed.

(** C5. The session id is [dm:<u>] in a direct conversation with user [u]
    and [guild:<g>:channel:<c>:user:<u>] in a channel of a guild; it is a
    function of the kind of conversation and of these ids alone; and two
    messages with the same session id are of the same kind, from the same
    user and, in a guild, in the same guild and the same channel. *)
Theorem session_id_injective :
  (∀ m, is_dm (channel m) = true →
        session_id_of m = inr (u "dm:" ++ str_of_int (user_id (author m))))
  ∧ (∀ m g cid, is_dm (channel m) = false → guild m = Some g →
        channel_id (channel m) = Some cid →
        session_id_of m
        = inr (u "guild:" ++ str_of_int (guild_id g) ++ u ":channel:"
               ++ str_of_int cid ++ u ":user:"
               ++ str_of_int (user_id (author m))))
  ∧ (∀ m1 m2, is_dm (channel m1) = is_dm (channel m2) →
        user_id (author m1) = user_id (author m2) →
        (is_dm (channel m1) = false →
           guild_id <$> guild m1 = guild_id <$> guild m2
           ∧ channel_id (channel m1) = channel_id (channel m2)) →
        session_id_of m1 = session_id_of m2)
  ∧ (∀ m1 m2 key, session_id_of m1 = inr key → session_id_of m2 = inr key →
        is_dm (channel m1) = is_dm (channel m2)
        ∧ user_id (author m1) = user_id (author m2)
        ∧ (is_dm (channel m1) = false →
             guild_id <$> guild m1 = guild_id <$> guild m2
             ∧ channel_id (channel m1) = channel_id (channel m2))).
Proof.
  split; [|split; [|split]].
  - intros m Hdm. unfold session_id_of. by rewrite Hdm.
  - intros m g cid Hdm Hg Hc. unfold session_id_of.
    rewrite channel_id_channel in Hc. injection Hc as <-. by rewrite Hdm, Hg.
  - intros m1 m2 Hk Hu Hgc. unfold session_id_of. rewrite <- Hk, <- Hu.
    destruct (is_dm (channel m1)); [done|].
    destruct (Hgc eq_refl) as [Hg Hc]. rewrite !channel_id_channel in Hc.
    injection Hc as <-.
    destruct (guild m1) as [g1|], (guild m2) as [g2|]; try discriminate Hg;
      [|done].
    by injection Hg as <-.
  - intros m1 m2 key H1 H2. unfold session_id_of in H1, H2.
    destruct (is_dm (channel m1)) eqn:D1, (is_dm (channel m2)) eqn:D2;
      repeat match goal with
        | H : context [match guild ?m with _ => _ end] |- _ => destruct (guild m)
        end; try discriminate H1; try discriminate H2;
      rewrite <- H2 in H1; apply (inj inr) in H1.
    + symmetry in H1. apply dm_key_inj in H1. by repeat split.
    + by apply dm_key_not_guild_key in H1.
    + symmetry in H1. by apply dm_key_not_guild_key in H1.
    + apply guild_key_inj in H1 as (Hg & Hc & Hu).
      rewrite !channel_id_channel. repeat split; simpl; congruence.
Qed.

(** ** The channel registry *)

(** C2. [_is_allowed_channel] is true for every direct conversation, whatever
    the registry holds; for any other channel it is true exactly when the
    channel has an id and the id is in the registry. *)
Theorem is_allowed_channel_spec (allowed : gset Z) :
  (∀ i, _is_allowed_channel allowed (DMChannel i) = true)
  ∧ (∀ oi, _is_allowed_channel allowed (OtherChannel oi) = true
           ↔ ∃ i, oi = Some i ∧ i ∈ allowed).
Proof.
  split; [done|]. intros [i|]; unfold _is_allowed_channel; simpl.
  - rewrite bool_decide_eq_true. split; [eauto|]. by intros (? & [= <-] & ?).
  - split; [done|]. by intros (? & ? & ?).
Qed.

Lemma not_allowed_channel (allowed : gset Z) ch :
  is_dm ch = false → (∀ i, channel_id ch = Some i → i ∉ allowed) →
  _is_allowed_channel allowed ch = false.
Proof.
  intros Hdm Hid. unfold _is_allowed_channel. rewrite Hdm.
  destruct (channel_id ch) as [i|]; [|done].
  apply bool_decide_eq_false. by apply Hid.
Qed.

(** C6. A registration or deregistration that is refused (in a direct
    conversation, for want of the privilege, or because the channel is
    already in the state asked for) returns the bot as it was, registry
    included, and sends the one message of that refusal; the messages of the
    three refusals differ from one another and from the apology sent for a
    failed generation. This holds for the text tokens and the slash
    commands. *)
Theorem refused_command_keeps_registry (c : Command) (b : Bot) :
  (∀ m, is_dm (channel m) = true →
     text_command c b m
     = Returned b [Send (channel m) (text_refusal_message c InvalidContext)])
  ∧ (∀ m, is_dm (channel m) = false →
     _has_manage_channels (author m) = false ∨ guild m = None →
     text_command c b m
     = Returned b [Send (channel m) (text_refusal_message c PermissionDenied)])
  ∧ (∀ m cid, is_dm (channel m) = false →
     _has_manage_channels (author m) = true → guild m ≠ None →
     channel_id (channel m) = Some cid →
     already_done c (allowed_channel_ids b) cid = true →
     text_command c b m
     = Returned b [Send (channel m) (text_refusal_message c NothingToDo)])
  ∧ (∀ i, from_option is_dm true (interaction_channel i) = true →
     slash_command c b i
     = (b, [Ephemeral (slash_refusal_message c InvalidContext)]))
  ∧ (∀ i ch, interaction_channel i = Some ch → is_dm ch = false →
     _has_manage_channels (interaction_user i) = false →
     slash_command c b i
     = (b, [Ephemeral (slash_refusal_message c PermissionDenied)]))
  ∧ (∀ i ch cid, interaction_channel i = Some ch → is_dm ch = false →
     _has_manage_channels (interaction_user i) = true →
     channel_id ch = Some cid →
     already_done c (allowed_channel_ids b) cid = true →
     slash_command c b i
     = (b, [Ephemeral (slash_refusal_message c NothingToDo)]))
  ∧ (∀ r, text_refusal_message c r ≠ MSG_APOLOGY
          ∧ slash_refusal_message c r ≠ MSG_APOLOGY)
  ∧ (∀ r r', r ≠ r' →
          text_refusal_message c r ≠ text_refusal_message c r'
          ∧ slash_refusal_message c r ≠ slash_refusal_message c r').
Proof.
  repeat split.
  - intros m Hdm. destruct c; simpl; unfold text_join, text_leave; by rewrite Hdm.
  - intros m Hdm Hp.
    assert (E : bool_decide (guild m = None)
                || negb (_has_manage_channels (author m)) = true).
    { destruct Hp as [-> | ->]; [by rewrite orb_true_r | done]. }
    destruct c; simpl; unfold text_join, text_leave; by rewrite Hdm, E.
  - intros m cid Hdm Hp Hg Hc Hdone.
    rewrite channel_id_channel in Hc. injection Hc as <-.
    destruct c; simpl in *; unfold text_join, text_leave;
      rewrite Hdm, Hp, Hdone, bool_decide_eq_false_2 by done; done.
  - intros i Hdm. destruct c; simpl; unfold register_channel, unregister_channel;
      destruct (interaction_channel i) as [ch|]; simpl in Hdm; by rewrite ?Hdm.
  - intros i ch Hch Hdm Hp.
    destruct c; simpl; unfold register_channel, unregister_channel;
      by rewrite Hch, Hdm, Hp.
  - intros i ch cid Hch Hdm Hp Hc Hdone.
    destruct c; simpl in *; unfold register_channel, unregister_channel;
      by rewrite Hch, Hdm, Hp, Hc, Hdone.
  - destruct c, r; by apply msg_neq.
  - destruct c, r; by apply msg_neq.
  - destruct c, r, r'; (done || by apply msg_neq).
  - destruct c, r, r'; (done || by apply msg_neq).
Qed.

(** The two handlers of a command do the same to the registry for an actor
    that the platform delivers: without a guild there are no guild
    permissions to hold. *)
Lemma text_command_registry (c : Command) (b : Bot) (m : Message)
  (i : Interaction) :
  interaction_channel i = Some (channel m) →
  interaction_user i = author m →
  (guild m = None → guild_permissions (author m) = None) →
  allowed_channel_ids (bot_of (text_command c b m))
  = allowed_channel_ids (slash_command c b i).1.
Proof.
  intros Hch Hu Hwf.
  destruct c; simpl; unfold text_join, text_leave, register_channel,
    unregister_channel; rewrite Hch, Hu, channel_id_channel.
  all: destruct (is_dm (channel m)) eqn:Hdm; [done|].
  all: destruct (guild m) as [g|].
  all: try (unfold _has_manage_channels; by rewrite Hwf).
  all: destruct (_has_manage_channels (author m)) eqn:Hp; [|done].
  all: simpl.
  all: by destruct (bool_decide (message_channel_id m ∈ allowed_channel_ids b)).
Qed.

(** A leave token is no join token. *)
Lemma leave_token_not_join (command : str) :
  command ∈ LEAVE_TOKENS → bool_decide (command ∈ JOIN_TOKENS) = false.
Proof. intros H. tokens H E; by rewrite E. Qed.

(** C7. A message of a human sender whose body is a join (leave) token and
    the slash command [/join] ([/leave]) of the same actor in the same
    channel, with the same registry: [on_message] runs the block of the
    token and leaves the registry that the slash handler leaves, so that the
    channel id is inserted (removed) by the one exactly when it is by the
    other. The message is one the platform delivers: where it has no guild,
    its author is a plain user, without guild permissions, the case in which
    line 230 answers that the permission could not be verified. *)
Theorem slash_and_text_commands_agree (lower : str -> str) (c : Command)
  (b : Bot) (m : Message) (i : Interaction) :
  bot (author m) = false →
  lower (_clean_prompt (client_user b) m) ∈ command_tokens c →
  interaction_channel i = Some (channel m) →
  interaction_user i = author m →
  (guild m = None → guild_permissions (author m) = None) →
  on_message lower b m = text_command c b m
  ∧ allowed_channel_ids (bot_of (on_message lower b m))
    = allowed_channel_ids (slash_command c b i).1
  ∧ ∀ j, j ∈ allowed_channel_ids (bot_of (on_message lower b m))
         ↔ j ∈ allowed_channel_ids (slash_command c b i).1.
Proof.
  intros Hbot Htok Hch Hu Hwf.
  assert (E : on_message lower b m = text_command c b m).
  { unfold on_message. rewrite Hbot. destruct c; simpl in *.
    - by rewrite bool_decide_eq_true_2.
    - by rewrite leave_token_not_join, bool_decide_eq_true_2. }
  rewrite E, (text_command_registry c b m i Hch Hu Hwf). done.
Qed.

(** ** The session store *)

Lemma reset_absent ag k : _sessions ag !! k = None → reset ag k = inr ag.
Proof.
  intros H. unfold reset. rewrite bool_decide_eq_false_2; [done|].
  rewrite elem_of_dom, H. by intros [? ?].
Qed.

Lemma reset_present ag k chat :
  _sessions ag !! k = Some chat →
  reset ag k = inr {| _sessions := delete k (_sessions ag); chats := chats ag |}.
Proof.
  intros H. unfold reset, dict_del. rewrite bool_decide_eq_true_2, H; [done|].
  rewrite elem_of_dom. by rewrite H.
Qed.

(** [reset] never raises: the [del] is guarded by the membership test. *)
Lemma reset_total ag k :
  reset ag k = inr {| _sessions := delete k (_sessions ag); chats := chats ag |}.
Proof.
  destruct (_sessions ag !! k) as [chat|] eqn:E.
  - by apply reset_present in E.
  - rewrite reset_absent by done. destruct ag as [s c]; simpl in *.
    by rewrite delete_id.
Qed.

Lemma get_session_absent ag k :
  _sessions ag !! k = None →
  _get_session ag k
  = ({| _sessions := <[k := length (chats ag)]> (_sessions ag);
        chats := chats ag ++ [ {| history := [] |} ] |}, length (chats ag)).
Proof. intros H. unfold _get_session. by rewrite H. Qed.

Lemma get_session_present ag k chat :
  _sessions ag !! k = Some chat → _get_session ag k = (ag, chat).
Proof. intros H. unfold _get_session. by rewrite H. Qed.

(** C9. [reset] raises in no state; where the key has no handle it changes
    nothing; a second [reset] changes nothing either and the key has no
    handle after it, the other keys keeping theirs; and the next
    [_get_session] for the key creates a chat object that did not exist
    before, with an empty history, and stores it. *)
Theorem reset_is_idempotent (ag : CounselingAgent) (k : str) :
  (∃ ag1, reset ag k = inr ag1
     ∧ reset ag1 k = inr ag1
     ∧ _sessions ag1 !! k = None
     ∧ (∀ k', k' ≠ k → _sessions ag1 !! k' = _sessions ag !! k')
     ∧ ∃ ag2 chat, _get_session ag1 k = (ag2, chat)
         ∧ chats ag !! chat = None
         ∧ chats ag2 !! chat = Some {| history := [] |}
         ∧ _sessions ag2 !! k = Some chat)
  ∧ (_sessions ag !! k = None → reset ag k = inr ag).
Proof.
  split; [|apply reset_absent].
  eexists. split; [apply reset_total|].
  set (ag1 := {| _sessions := delete k (_sessions ag); chats := chats ag |}).
  assert (Hk : _sessions ag1 !! k = None) by apply lookup_delete_eq.
  split; [by apply reset_absent|]. split; [done|]. split.
  { intros k' Hk'. simpl. by rewrite lookup_delete_ne. }
  eexists _, _. split; [by apply get_session_absent|]. simpl.
  split; [by apply lookup_ge_None_2|]. split.
  - by rewrite lookup_app_r, Nat.sub_diag.
  - apply lookup_insert_eq.
Qed.

(** C10. When a key has no handle and [generate] fails, [_get_session] has
    created one chat object, which did not exist before and has an empty
    history, and stored it for the key before the remote call; after the
    failure the key still maps to it and the object is still there, holding
    the turn of the call if the remote service answered; and a later
    [_get_session] returns that handle and creates nothing. *)
Theorem failed_generate_keeps_handle (ag : CounselingAgent) (k prompt : str)
  (c : Completion) (e : exn) :
  _sessions ag !! k = None →
  (generate ag k prompt c).2 = inl e →
  ∃ ag1 chat,
    _get_session ag k = (ag1, chat)
    ∧ chats ag !! chat = None
    ∧ chats ag1 !! chat = Some {| history := [] |}
    ∧ length (chats ag1) = S (length (chats ag))
    ∧ _sessions ag1 !! k = Some chat
    ∧ _sessions (generate ag k prompt c).1 !! k = Some chat
    ∧ chats (generate ag k prompt c).1 !! chat
      = Some {| history := match c with
                           | Failed _ => []
                           | Responded text => [(prompt, default [] text)]
                           end |}
    ∧ length (chats (generate ag k prompt c).1) = S (length (chats ag))
    ∧ _get_session (generate ag k prompt c).1 k
      = ((generate ag k prompt c).1, chat).
Proof.
  intros Hk He. unfold generate in *. rewrite get_session_absent in * by done.
  eexists _, _. split; [done|]. simpl.
  assert (Hnew : (chats ag ++ [ {| history := [] |} ]) !! length (chats ag)
                 = Some {| history := [] |})
    by by rewrite lookup_app_r, Nat.sub_diag.
  assert (Hlen : length (chats ag ++ [ {| history := [] |} ])
                 = S (length (chats ag)))
    by (rewrite length_app; simpl; lia).
  split; [by apply lookup_ge_None_2|]. split; [done|]. split; [done|].
  split; [apply lookup_insert_eq|].
  assert (E : _sessions (send_message
      {| _sessions := <[k:=length (chats ag)]> (_sessions ag);
         chats := chats ag ++ [ {| history := [] |} ] |}
      (length (chats ag)) prompt c) !! k = Some (length (chats ag))).
  { destruct c; simpl; apply lookup_insert_eq. }
  split; [done|]. split; [|split; [|by apply get_session_present]].
  - destruct c; simpl; [|done]. by rewrite list_lookup_alter_eq, Hnew.
  - destruct c; simpl; [|done]. by rewrite length_alter.
Qed.

(** ** The dispatcher *)

(** [on_message] is its tests on the body followed by the branch of the
    class they give. *)
Lemma on_message_classify lower b m :
  bot (author m) = false →
  on_message lower b m
  = dispatch_spec b m (classify lower (_clean_prompt (client_user b) m)).
Proof.
  intros Hbot. unfold on_message, classify, dispatch_spec. rewrite Hbot.
  set (body := _clean_prompt (client_user b) m).
  destruct (bool_decide (lower body ∈ JOIN_TOKENS)); [done|].
  destruct (bool_decide (lower body ∈ LEAVE_TOKENS)); [done|].
  unfold gated, with_session_id.
  destruct (negb (_should_respond (allowed_channel_ids b) m)).
  { by repeat case_match. }
  destruct body as [|c body']; [done|].
  by destruct (bool_decide (lower (c :: body') ∈ RESET_TOKENS)).
Qed.

Section DispatcherFacts.

Variable lower : str -> str.

(** What [str.lower] is taken to do: only the empty text lower-cases to
    the empty text, and on ASCII texts it lowers the letters A-Z. *)
Hypothesis lower_nil : ∀ s, lower s = [] ↔ s = [].
Hypothesis lower_ascii : ∀ s, ascii_str s → lower s = ascii_lower s.

Lemma lower_of_variant body tok :
  ascii_str tok → ascii_lower body = tok → lower body = tok.
Proof.
  intros Ht E. rewrite lower_ascii; [done|].
  apply ascii_lower_ascii. by rewrite E.
Qed.

Lemma classify_order body : classify lower body = classify_spec lower body.
Proof.
  unfold classify, classify_spec.
  destruct (bool_decide (lower body ∈ JOIN_TOKENS)); [done|].
  destruct (bool_decide (lower body ∈ LEAVE_TOKENS)); [done|].
  destruct body as [|c body'].
  - assert (E : lower [] = []) by by apply lower_nil.
    rewrite E.
    by replace (bool_decide ([] ∈ RESET_TOKENS)) with false by by vm_compute.
  - destruct (bool_decide (lower (c :: body') ∈ RESET_TOKENS)); [done|].
    rewrite bool_decide_eq_false_2; [done|].
    intros E. apply (proj1 (lower_nil _)) in E. discriminate E.
Qed.

(** C4. [on_message] on a message of a human sender does what the
    dispatcher of the specification does with the class of the normalized
    body, the class being decided in the order registration, deregistration,
    reset, empty, generation on the lower-cased body, which is the class the
    tests of the code give in their own order; a generation is started only
    for a body of the last class and its prompt is the body before
    lower-casing; and a body that is a token up to the case of its ASCII
    letters has the class of the token. *)
Theorem on_message_follows_classification b m :
  bot (author m) = false →
  let body := _clean_prompt (client_user b) m in
  on_message lower b m = dispatch_spec b m (classify_spec lower body)
  ∧ classify lower body = classify_spec lower body
  ∧ (∀ b1 out session_id chat prompt,
       on_message lower b m = Awaiting b1 out session_id chat prompt →
       classify_spec lower body = GenerationRequest body ∧ prompt = body)
  ∧ (ascii_lower body ∈ JOIN_TOKENS → classify_spec lower body = RegisterCommand)
  ∧ (ascii_lower body ∈ LEAVE_TOKENS →
       classify_spec lower body = DeregisterCommand)
  ∧ (ascii_lower body ∈ [u "!reset"; u "reset"] →
       classify_spec lower body = ResetCommand).
Proof.
  intros Hbot body.
  assert (Hd : on_message lower b m
               = dispatch_spec b m (classify_spec lower body)).
  { rewrite <- classify_order. by apply on_message_classify. }
  split; [done|]. split; [apply classify_order|]. split.
  - intros b1 out sid chat prompt. rewrite Hd.
    unfold classify_spec, dispatch_spec, text_join, text_leave,
      gated, with_session_id.
    repeat case_match; try discriminate; intros [= _ _ _ _ <-];
      by simplify_eq.
  - repeat split; intros H; tokens H E; unfold classify_spec;
      (erewrite lower_of_variant; [|apply ascii_str_compute|exact E]);
      reflexivity.
Qed.

End DispatcherFacts.

Section EventLoopFacts.

Variable lower : str -> str.

(** C3. A message of a human sender that is neither a registration nor a
    deregistration command, in a channel that is not a direct conversation
    and whose id is not in the registry, makes [on_message] return at once:
    nothing is sent, the bot is as it was, and no call is started, so the
    event loop is in the state it was in. *)
Theorem unregistered_channel_is_ignored b m :
  bot (author m) = false →
  lower (_clean_prompt (client_user b) m) ∉ JOIN_TOKENS ++ LEAVE_TOKENS →
  is_dm (channel m) = false →
  (∀ i, channel_id (channel m) = Some i → i ∉ allowed_channel_ids b) →
  on_message lower b m = Returned b []
  ∧ (∀ c, on_message_run lower b m c = Returned b [])
  ∧ (∀ w, world_bot w = b → step lower w (MessageCreate m) = w).
Proof.
  intros Hbot Hcmd Hdm Hid.
  assert (E : on_message lower b m = Returned b []).
  { unfold on_message. rewrite Hbot.
    rewrite not_elem_of_app in Hcmd. destruct Hcmd as [Hj Hl].
    rewrite !bool_decide_eq_false_2 by done.
    unfold _should_respond. rewrite Hdm. by rewrite not_allowed_channel. }
  split; [done|]. split.
  - intros c. unfold on_message_run. by rewrite E.
  - intros [wb fl ob] Hw. simpl in Hw. subst wb. simpl. rewrite E.
    by rewrite app_nil_r.
Qed.

(** What a suspended [on_message] has done: derived the session id, looked
    the session up, and entered the typing context. *)
Lemma on_message_awaiting b m b1 out session_id chat prompt :
  on_message lower b m = Awaiting b1 out session_id chat prompt →
  session_id_of m = inr session_id
  ∧ (∃ ag, _get_session (assistant b) session_id = (ag, chat)
           ∧ b1 = with_assistant b ag)
  ∧ out = [Typing (channel m)].
Proof.
  unfold on_message, text_join, text_leave.
  repeat case_match; try discriminate; intros [= <- <- <- <- <-]; eauto.
Qed.

(** The suspended handler and its resumption make up a call of
    [generate]. *)
Lemma on_message_run_generate b m b1 out session_id chat prompt c :
  on_message lower b m = Awaiting b1 out session_id chat prompt →
  on_message_run lower b m c
  = Returned
      (with_assistant b (generate (assistant b) session_id prompt c).1)
      (Typing (channel m) ::
       match (generate (assistant b) session_id prompt c).2 with
       | inl _ => [Send (channel m) MSG_APOLOGY]
       | inr reply =>
           if is_dm (channel m) then [Send (channel m) reply]
           else [Reply m reply]
       end).
Proof.
  intros H. unfold on_message_run. rewrite H.
  apply on_message_awaiting in H as (_ & (ag & Hs & ->) & ->).
  unfold on_message_resume, generate. rewrite Hs. simpl.
  destruct (_invoke c); [done|]. by destruct (is_dm (channel m)).
Qed.

(** C8. A completion that is blank after stripping makes [generate] raise
    [ValueError], a fault of the remote call makes it raise that fault; and
    whenever [generate] raises, whatever the exception, [on_message] sends
    the apology and nothing else, and the apology is not the empty text. *)
Theorem generation_failure_gets_apology :
  (∀ ag session_id prompt text,
     strip (default [] text) = [] →
     (generate ag session_id prompt (Responded text)).2
     = inl (ValueError EMPTY_RESPONSE))
  ∧ (∀ ag session_id prompt detail,
     (generate ag session_id prompt (Failed detail)).2
     = inl (RemoteError detail))
  ∧ (∀ b m b1 out session_id chat prompt c e,
     on_message lower b m = Awaiting b1 out session_id chat prompt →
     (generate (assistant b) session_id prompt c).2 = inl e →
     on_message_run lower b m c
     = Returned
         (with_assistant b (generate (assistant b) session_id prompt c).1)
         [Typing (channel m); Send (channel m) MSG_APOLOGY])
  ∧ MSG_APOLOGY ≠ [].
Proof.
  repeat split.
  - intros ag sid prompt text H. unfold generate.
    destruct (_get_session ag sid). simpl. by rewrite H.
  - intros ag sid prompt detail. unfold generate.
    by destruct (_get_session ag sid).
  - intros b m b1 out sid chat prompt c e H He.
    rewrite (on_message_run_generate _ _ _ _ _ _ _ _ H). by rewrite He.
  - discriminate.
Qed.

End EventLoopFacts.

(** ** No guard on a session id *)

Lemma send_message_sessions ag chat prompt c :
  _sessions (send_message ag chat prompt c) = _sessions ag.
Proof. by destruct c. Qed.

Lemma text_command_bot cmd b m :
  assistant (bot_of (text_command cmd b m)) = assistant b
  ∧ client_user (bot_of (text_command cmd b m)) = client_user b.
Proof.
  destruct cmd; simpl; unfold text_join, text_leave; by repeat case_match.
Qed.

Lemma slash_command_bot cmd b i :
  assistant (slash_command cmd b i).1 = assistant b
  ∧ client_user (slash_command cmd b i).1 = client_user b.
Proof.
  destruct cmd; simpl; unfold register_channel, unregister_channel;
    by repeat case_match.
Qed.

Section NoGuard.

Variable lower : str -> str.

(** A generation request is started: the session is looked up and the call
    is handed over, whatever the state. *)
Lemma on_message_generation_request b m session_id :
  generation_request lower b m session_id →
  on_message lower b m
  = Awaiting (with_assistant b (_get_session (assistant b) session_id).1)
      [Typing (channel m)] session_id
      (_get_session (assistant b) session_id).2
      (_clean_prompt (client_user b) m).
Proof.
  intros (Hbot & Hc & Hr & Hs). rewrite on_message_classify by done.
  rewrite Hc. unfold dispatch_spec, gated, with_session_id. rewrite Hr, Hs.
  simpl. by destruct (_get_session (assistant b) session_id).
Qed.

Lemma on_message_client_user b m :
  client_user (bot_of (on_message lower b m)) = client_user b.
Proof.
  unfold on_message.
  destruct (bot (author m)); [done|].
  destruct (bool_decide (_ ∈ JOIN_TOKENS));
    [apply (text_command_bot CmdJoin)|].
  destruct (bool_decide (_ ∈ LEAVE_TOKENS));
    [apply (text_command_bot CmdLeave)|].
  by repeat case_match.
Qed.

Lemma step_client_user w e :
  client_user (world_bot (step lower w e)) = client_user (world_bot w).
Proof.
  destruct e as [m|i|i|n c]; simpl.
  - pose proof (on_message_client_user (world_bot w) m) as H.
    by destruct (on_message lower (world_bot w) m).
  - pose proof (proj2 (slash_command_bot CmdJoin (world_bot w) i)) as H.
    simpl in H. by destruct (register_channel (world_bot w) i).
  - pose proof (proj2 (slash_command_bot CmdLeave (world_bot w) i)) as H.
    simpl in H. by destruct (unregister_channel (world_bot w) i).
  - destruct (in_flight w !! n); [|done]. unfold on_message_resume.
    by repeat case_match; simplify_eq/=.
Qed.

(** Only a reset token on the session id takes its handle away. *)
Lemma on_message_keeps_handle b m session_id chat :
  _sessions (assistant b) !! session_id = Some chat →
  ¬ resets_session lower (client_user b) session_id (MessageCreate m) →
  _sessions (assistant (bot_of (on_message lower b m))) !! session_id
  = Some chat.
Proof.
  intros Hs Hr. unfold on_message.
  destruct (bot (author m)); [done|].
  destruct (bool_decide (_ ∈ JOIN_TOKENS)).
  { pose proof (proj1 (text_command_bot CmdJoin b m)) as E. simpl in E.
    by rewrite E. }
  destruct (bool_decide (_ ∈ LEAVE_TOKENS)).
  { pose proof (proj1 (text_command_bot CmdLeave b m)) as E. simpl in E.
    by rewrite E. }
  destruct (negb _); [done|].
  destruct (_clean_prompt (client_user b) m) as [|x body] eqn:Eb; [done|].
  destruct (session_id_of m) as [e|sid] eqn:Es; [done|].
  destruct (bool_decide (_ ∈ RESET_TOKENS)) eqn:Et.
  - rewrite reset_total. simpl. rewrite lookup_delete_ne; [done|].
    intros ->. apply Hr. simpl. rewrite Eb. split; [done|].
    by apply bool_decide_eq_true in Et.
  - unfold _get_session.
    destruct (_sessions (assistant b) !! sid) eqn:E; simpl; [done|].
    rewrite lookup_insert_ne; [done|]. intros ->. congruence.
Qed.

Lemma step_keeps_handle w e session_id chat :
  _sessions (assistant (world_bot w)) !! session_id = Some chat →
  ¬ resets_session lower (client_user (world_bot w)) session_id e →
  _sessions (assistant (world_bot (step lower w e))) !! session_id = Some chat.
Proof.
  intros Hs Hr. destruct e as [m|i|i|n c]; simpl.
  - pose proof (on_message_keeps_handle (world_bot w) m session_id chat Hs Hr)
      as H.
    by destruct (on_message lower (world_bot w) m).
  - pose proof (proj1 (slash_command_bot CmdJoin (world_bot w) i)) as H.
    simpl in H. destruct (register_channel (world_bot w) i). simpl in *.
    by rewrite H.
  - pose proof (proj1 (slash_command_bot CmdLeave (world_bot w) i)) as H.
    simpl in H. destruct (unregister_channel (world_bot w) i). simpl in *.
    by rewrite H.
  - destruct (in_flight w !! n); [|done]. unfold on_message_resume.
    destruct (_invoke c); [|destruct (is_dm _)]; simpl;
      by rewrite send_message_sessions.
Qed.

Lemma run_keeps_handle w events session_id chat :
  _sessions (assistant (world_bot w)) !! session_id = Some chat →
  Forall (fun e => ¬ resets_session lower (client_user (world_bot w))
                       session_id e) events →
  _sessions (assistant (world_bot (run lower w events))) !! session_id
  = Some chat.
Proof.
  revert w. induction events as [|e events IH]; intros w Hs H; [done|].
  apply Forall_cons in H as [He H]. unfold run. simpl.
  fold (run lower (step lower w e) events). apply IH.
  - by apply step_keeps_handle.
  - by rewrite step_client_user.
Qed.

(** A call stays in flight until its thread is done. *)
Lemma step_keeps_call w e call :
  call ∈ in_flight w → ¬ is_thread_done e → call ∈ in_flight (step lower w e).
Proof.
  intros Hc He. destruct e as [m|i|i|n c]; simpl.
  - destruct (on_message lower (world_bot w) m); simpl; try done.
    apply elem_of_app. by left.
  - by destruct (register_channel (world_bot w) i).
  - by destruct (unregister_channel (world_bot w) i).
  - by destruct He.
Qed.

Lemma run_keeps_call w events call :
  call ∈ in_flight w → Forall (fun e => ¬ is_thread_done e) events →
  call ∈ in_flight (run lower w events).
Proof.
  revert w. induction events as [|e events IH]; intros w Hc H; [done|].
  apply Forall_cons in H as [He H]. unfold run. simpl.
  fold (run lower (step lower w e) events). apply IH; [|done].
  by apply step_keeps_call.
Qed.

(** C1, as the code has it. Nothing guards a session id: a generation
    request is handed to [asyncio.to_thread] in whatever state the event loop
    is, whatever calls are in flight on its session id or on another; it is
    neither answered as busy nor held back until a call of its session id is
    done. The call takes the handle that the session lookup gives; and a
    request that follows on the same session id, with no reset token of that
    session id in between, is started on that very handle, next to the first
    call if its thread is not done. *)
Theorem generation_has_no_guard w m session_id :
  generation_request lower (world_bot w) m session_id →
  let chat := (_get_session (assistant (world_bot w)) session_id).2 in
  let call := {| call_message := m; call_session := session_id;
                 call_chat := chat;
                 call_prompt := _clean_prompt (client_user (world_bot w)) m |} in
  let w1 := step lower w (MessageCreate m) in
  in_flight w1 = in_flight w ++ [call]
  ∧ calls_on w1 session_id = calls_on w session_id ++ [call]
  ∧ outbox w1 = outbox w ++ [Typing (channel m)]
  ∧ _sessions (assistant (world_bot w1)) !! session_id = Some chat
  ∧ ∀ events m2,
      Forall (fun e => ¬ resets_session lower (client_user (world_bot w))
                           session_id e) events →
      let w2 := run lower w1 events in
      generation_request lower (world_bot w2) m2 session_id →
      let call2 := {| call_message := m2; call_session := session_id;
                      call_chat := chat;
                      call_prompt :=
                        _clean_prompt (client_user (world_bot w2)) m2 |} in
      in_flight (step lower w2 (MessageCreate m2)) = in_flight w2 ++ [call2]
      ∧ (Forall (fun e => ¬ is_thread_done e) events → call ∈ in_flight w2).
Proof.
  intros Hreq chat call w1.
  assert (Hw1 : w1 = {| world_bot := with_assistant (world_bot w)
                          (_get_session (assistant (world_bot w)) session_id).1;
                        in_flight := in_flight w ++ [call];
                        outbox := outbox w ++ [Typing (channel m)] |}).
  { subst w1. simpl. by rewrite (on_message_generation_request _ _ _ Hreq). }
  assert (Hs : _sessions (assistant (world_bot w1)) !! session_id = Some chat).
  { rewrite Hw1. simpl. subst chat. unfold _get_session.
    destruct (_sessions (assistant (world_bot w)) !! session_id) eqn:E;
      simpl; [done|apply lookup_insert_eq]. }
  split; [by rewrite Hw1|]. split.
  { rewrite Hw1. unfold calls_on. simpl. rewrite filter_app. f_equal.
    by rewrite filter_cons_True. }
  split; [by rewrite Hw1|]. split; [done|].
  intros events m2 Hno w2 Hreq2 call2. split.
  - assert (Hs2 : _sessions (assistant (world_bot w2)) !! session_id
                  = Some chat).
    { apply run_keeps_handle; [done|]. unfold w1.
      by rewrite step_client_user. }
    simpl. rewrite (on_message_generation_request _ _ _ Hreq2).
    unfold call2. by rewrite (get_session_present _ _ _ Hs2).
  - intros Hdone. apply run_keeps_call; [|done].
    rewrite Hw1. simpl. apply elem_of_app. right. left.
Qed.

End NoGuard.

(** C1, as the specification states it, fails: two messages of one user in
    one direct conversation, the second arriving while the call of the first
    is awaited, leave two calls in flight on the session id [dm:7]. *)
Lemma two_calls_on_one_session :
  ¬ (∀ events,
       single_flight (run ascii_lower (initial_world ∅ (Some mindcare)) events)).
Proof.
  intros H.
  specialize (H [MessageCreate hello; MessageCreate again] (u "dm:7")).
  vm_compute in H. lia.
Qed.

(** * Instances

    The theorems above at sample messages, with [ascii_lower] for
    [str.lower]: on the ASCII texts used here the two agree. *)

Lemma generation_has_no_guard_witness :
  generation_request ascii_lower (world_bot world1) again (u "dm:7")
  ∧ length (calls_on world1 (u "dm:7")) = 1%nat
  ∧ length (calls_on (step ascii_lower world1 (MessageCreate again)) (u "dm:7"))
    = 2%nat.
Proof.
  assert (H : generation_request ascii_lower (world_bot world1) again
                (u "dm:7")) by (repeat split; reflexivity).
  split; [exact H|]. split; [reflexivity|].
  rewrite (proj1 (proj2 (generation_has_no_guard ascii_lower world1 again
                           (u "dm:7") H))).
  reflexivity.
Defined.

Lemma unregistered_channel_is_ignored_witness :
  bot (author (guild_message alice 5 (u "hello"))) = false
  ∧ on_message ascii_lower bot0 (guild_message alice 5 (u "hello"))
    = Returned bot0 [].
Proof.
  split; [reflexivity|].
  refine (proj1 (unregistered_channel_is_ignored ascii_lower bot0
                   (guild_message alice 5 (u "hello")) eq_refl _ eq_refl _)).
  - apply not_in_tokens. reflexivity.
  - intros i _. apply not_elem_of_empty.
Defined.

Lemma on_message_follows_classification_witness :
  bot (author (guild_message moderator 5 (u "/JOIN"))) = false
  ∧ classify_spec ascii_lower
      (_clean_prompt (client_user bot0) (guild_message moderator 5 (u "/JOIN")))
    = RegisterCommand
  ∧ on_message ascii_lower bot0 (guild_message moderator 5 (u "/JOIN"))
    = dispatch_spec bot0 (guild_message moderator 5 (u "/JOIN")) RegisterCommand.
Proof.
  split; [reflexivity|]. split; [reflexivity|].
  exact (proj1 (on_message_follows_classification ascii_lower ascii_lower_nil
                  (fun s _ => eq_refl) bot0
                  (guild_message moderator 5 (u "/JOIN")) eq_refl)).
Defined.

Lemma session_id_injective_witness :
  session_id_of hello = inr (u "dm:7")
  ∧ session_id_of again = inr (u "dm:7")
  ∧ user_id (author hello) = user_id (author again).
Proof.
  split; [reflexivity|]. split; [reflexivity|].
  exact (proj1 (proj2 (proj2 (proj2 (proj2 session_id_injective))
                         hello again (u "dm:7") eq_refl eq_refl))).
Defined.

Lemma refused_command_keeps_registry_witness :
  let m := guild_message alice 5 (u "/join") in
  _has_manage_channels (author m) = false
  ∧ text_command CmdJoin bot0 m
    = Returned bot0
        [Send (channel m) (text_refusal_message CmdJoin PermissionDenied)].
Proof.
  intros m. split; [reflexivity|].
  exact (proj1 (proj2 (refused_command_keeps_registry CmdJoin bot0))
           m eq_refl (or_introl eq_refl)).
Defined.

Lemma slash_and_text_commands_agree_witness :
  let m := guild_message moderator 5 (u "/JOIN") in
  let i := {| interaction_channel := Some (channel m);
              interaction_user := moderator |} in
  bot (author m) = false
  ∧ guild m ≠ None
  ∧ allowed_channel_ids (bot_of (on_message ascii_lower bot0 m))
    = allowed_channel_ids (slash_command CmdJoin bot0 i).1.
Proof.
  intros m i. split; [reflexivity|]. split; [discriminate|].
  refine (proj1 (proj2 (slash_and_text_commands_agree ascii_lower CmdJoin bot0
                          m i eq_refl _ eq_refl eq_refl _))).
  - apply in_tokens. reflexivity.
  - intros H. discriminate H.
Defined.

Lemma generation_failure_gets_apology_witness :
  (generate (assistant bot0) (u "dm:7") (u "hello") (Responded (Some (u "  ")))).2
  = inl (ValueError EMPTY_RESPONSE)
  ∧ texts (actions_of (on_message_run ascii_lower bot0 hello
                         (Responded (Some (u "  ")))))
    = [MSG_APOLOGY].
Proof.
  split; [reflexivity|].
  rewrite (proj1 (proj2 (proj2 (generation_failure_gets_apology ascii_lower)))
             bot0 hello _ _ _ _ _ (Responded (Some (u "  "))) _
             eq_refl eq_refl).
  reflexivity.
Defined.

Lemma reset_is_idempotent_witness :
  reset (assistant bot0) (u "dm:7") = inr (assistant bot0).
Proof.
  exact (proj2 (reset_is_idempotent (assistant bot0) (u "dm:7")) eq_refl).
Defined.

Lemma failed_generate_keeps_handle_witness :
  _sessions (assistant bot0) !! u "dm:7" = None
  ∧ ∃ ag1 chat,
      _get_session (assistant bot0) (u "dm:7") = (ag1, chat)
      ∧ _sessions (generate (assistant bot0) (u "dm:7") (u "hello")
                     (Failed (u "timeout"))).1 !! u "dm:7" = Some chat
      ∧ chats (generate (assistant bot0) (u "dm:7") (u "hello")
                 (Failed (u "timeout"))).1 !! chat
        = Some {| history := [] |}.
Proof.
  split; [reflexivity|].
  destruct (failed_generate_keeps_handle (assistant bot0) (u "dm:7") (u "hello")
              (Failed (u "timeout")) (RemoteError (u "timeout"))
              eq_refl eq_refl)
    as (ag1 & chat & H1 & _ & _ & _ & _ & H2 & H3 & _).
  exists ag1, chat. split; [exact H1 | split; [exact H2 | exact H3]].
Defined.
